(** * Hinge pivot solver: the residual system of [hinge-solver.py]

    The program computes the two pivot points of a box-and-lid hinge by
    handing a four-equation residual function to a numerical root finder.

    Numbers are modelled as mathematical reals ([R]): Python's [float]
    arithmetic is read as exact arithmetic, so that the statements below
    are about the equations themselves and not about rounding.  A Python
    sequence is a [list R]; unpacking a sequence into four names fails when
    its length is not four, which is rendered by [None].

    The exact reading has no place for the one arithmetic error the program
    can raise, the overflow of [g**2] on a Python float. Module [Py] below is
    a second reading of the same two functions that keeps the exact values and
    adds Python's exceptions; the statements about what the solve does on
    every input are made there. *)

From Stdlib Require Import Reals Lra List.
Import ListNotations.

Open Scope R_scope.

(** ** The two NumPy functions the program calls *)

Module np.

(** [np.radians]: degrees to radians, a multiplication by pi/180. *)
Definition radians (deg : R) : R := deg * (PI / 180).

(** [np.tan]: the tangent of an angle given in radians. *)
Definition tan (x : R) : R := Rtrigo1.tan x.

End np.

(** ** The residual function *)

Definition equations (vars : list R) (h w d alpha g : R) : option (list R) :=
  match vars with
  | [x1; y1; x2; y2] =>
      let alpha_rad := np.radians alpha in
      let eq1 := x2 - (w - d) in
      let eq2 := y2 - h in
      let eq3 := (x2 - x1) ^ 2 + (y2 - y1) ^ 2 - g ^ 2 in
      let eq4 := y1 - h + d * np.tan alpha_rad in
      Some [eq1; eq2; eq3; eq4]
  | _ => None
  end.

(** The argument tuple [args=(h, w, d, alpha, g)] handed to the root finder. *)
Definition Args : Type := (R * R * R * R * R)%type.

(** A residual function as the root finder sees it: it is called as
    [func(x, *args)]. *)
Definition Residual : Type := list R -> R -> R -> R -> R -> R -> option (list R).

(** The root finder [scipy.optimize.fsolve], called as
    [fsolve(func, x0, args=...)]; its code is not part of the program, so it
    is a parameter of everything that follows. Its result is the final
    iterate. *)
Definition Solver : Type := Residual -> list R -> Args -> list R.

(** The local [initial_guess] of [solve_pivot_points], the starting vector
    for (x1, y1, x2, y2). *)
Definition initial_guess (h w d : R) : list R := [w / 2; h / 2; w - d; h].

Section Solve.

Variable fsolve : Solver.

Definition solve_pivot_points (h w d alpha g : R) : option ((R * R) * (R * R)) :=
  let solution := fsolve equations (initial_guess h w d) (h, w, d, alpha, g) in
  match solution with
  | [x1; y1; x2; y2] => Some ((x1, y1), (x2, y2))
  | _ => None
  end.

End Solve.

(** ** Vocabulary for the statements *)

(** The [i]-th residual (counted from 0) at an unknown vector. *)
Definition residual (i : nat) (vars : list R) (h w d alpha g : R) : option R :=
  match equations vars h w d alpha g with
  | Some r => nth_error r i
  | None => None
  end.

(** A root: all four residuals vanish. *)
Definition is_root (vars : list R) (h w d alpha g : R) : Prop :=
  equations vars h w d alpha g = Some [0; 0; 0; 0].

(** Every residual is at most [tol] in absolute value. *)
Definition within_tolerance (tol : R) (vars : list R) (h w d alpha g : R) : Prop :=
  exists r, equations vars h w d alpha g = Some r /\
            Forall (fun e => Rabs e <= tol) r.

(** Two small root finders, used to run the solve on concrete inputs. The
    first does no work and answers its starting point, which makes the starting
    point observable. *)
Definition fsolve_echo : Solver := fun _ x0 _ => x0.

(** The second makes one correction of the three unknowns whose equations are
    linear with unit slope (x2, y2 and y1); x1 keeps its starting value. *)
Definition fsolve_linear_step : Solver :=
  fun func x0 args =>
    let '(h, w, d, alpha, g) := args in
    match x0, func x0 h w d alpha g with
    | [x1; y1; x2; y2], Some [r1; r2; r3; r4] => [x1; y1 - r4; x2 - r1; y2 - r2]
    | _, _ => x0
    end.

(** The Euclidean distance between the two pivot points of an unknown
    vector. *)
Definition pivot_distance (x1 y1 x2 y2 : R) : R :=
  sqrt ((x2 - x1) ^ 2 + (y2 - y1) ^ 2).

(** ** The script at the end of the file *)

(** The example values the script binds at module level. *)
Module Example.

Definition h : R := 10.

Definition w : R := 15.

Definition d : R := 5.

Definition alpha : R := 30.

Definition g : R := 2.

End Example.

(** The script's call of the solve; the two components of the result are what
    it prints as the pivot on the box and the pivot on the lid. *)
Definition main (fsolve : Solver) : option ((R * R) * (R * R)) :=
  solve_pivot_points fsolve Example.h Example.w Example.d Example.alpha Example.g.

(** ** The same functions with Python's exceptions *)

Module Py.

(** The two exceptions the program's own statements can raise: a failed
    unpacking, and a float power out of range. *)
Inductive exn : Type :=
| ValueError
| OverflowError.

(** The outcome of a call: a value, or an exception that reaches the
    caller. *)
Inductive outcome (A : Type) : Type :=
| Ok (a : A)
| Raise (e : exn).

Arguments Ok {A} a.
Arguments Raise {A} e.

Definition bind {A B : Type} (c : outcome A) (k : A -> outcome B) : outcome B :=
  match c with
  | Ok a => k a
  | Raise e => Raise e
  end.

Notation "x <- c ;; k" := (bind c (fun x => k))
  (at level 61, c at next level, right associativity).

(** The largest finite double, (2^53 - 1) * 2^971. No double has a square
    strictly between this value and the point from which rounding gives
    infinity, so a double's square is out of range exactly when it exceeds
    it. *)
Definition float_max : R := (2 ^ 53 - 1) * 2 ^ 971.

(** [x ** 2] on a Python float: the power raises OverflowError when the
    result is out of range. *)
Definition pow2 (x : R) : outcome R :=
  if Rlt_dec float_max (x ^ 2) then Raise OverflowError else Ok (x ^ 2).

(** [equations] as the root finder calls it: [vars] is the array it passes,
    whose elements are NumPy scalars (their arithmetic does not raise), and
    h, w, d, alpha, g are the caller's Python floats. The statements are
    evaluated in the order of the source; the only ones that can raise are the
    unpacking and [g**2]. *)
Definition equations (vars : list R) (h w d alpha g : R) : outcome (list R) :=
  match vars with
  | [x1; y1; x2; y2] =>
      let alpha_rad := np.radians alpha in
      let eq1 := x2 - (w - d) in
      let eq2 := y2 - h in
      g2 <- pow2 g ;;
      let eq3 := (x2 - x1) ^ 2 + (y2 - y1) ^ 2 - g2 in
      let eq4 := y1 - h + d * np.tan alpha_rad in
      Ok [eq1; eq2; eq3; eq4]
  | _ => Raise ValueError
  end.

Definition Residual : Type :=
  list R -> R -> R -> R -> R -> R -> outcome (list R).

(** The root finder, still a parameter; here it may raise. *)
Definition Solver : Type := Residual -> list R -> Args -> outcome (list R).

Definition solve_pivot_points (fsolve : Solver) (h w d alpha g : R)
  : outcome ((R * R) * (R * R)) :=
  solution <- fsolve equations (initial_guess h w d) (h, w, d, alpha, g) ;;
  match solution with
  | [x1; y1; x2; y2] => Ok ((x1, y1), (x2, y2))
  | _ => Raise ValueError
  end.

(** What every use of the root finder relies on: it evaluates the function
    it is given at the starting vector (SciPy does so first, to check the
    shape of the result), and an exception raised there leaves the root
    finder. *)
Definition evaluates_start (fsolve : Solver) : Prop :=
  forall (func : Residual) x0 h w d alpha g e,
    func x0 h w d alpha g = Raise e ->
    fsolve func x0 (h, w, d, alpha, g) = Raise e.

(** The least root finder of that kind: it evaluates the function at the
    starting vector and answers the starting vector. *)
Definition fsolve_echo : Solver :=
  fun func x0 args =>
    let '(h, w, d, alpha, g) := args in
    _ <- func x0 h w d alpha g ;;
    Ok x0.

End Py.

(** ** Basic facts *)

Lemma radians_0 : np.radians 0 = 0.
Proof. unfold np.radians. lra. Qed.

Lemma radians_opp alpha : np.radians (- alpha) = - np.radians alpha.
Proof. unfold np.radians. lra. Qed.

Lemma tan_radians_0 : np.tan (np.radians 0) = 0.
Proof. rewrite radians_0. unfold np.tan. apply tan_0. Qed.

Lemma tan_radians_opp alpha :
  np.tan (np.radians (- alpha)) = - np.tan (np.radians alpha).
Proof. rewrite radians_opp. unfold np.tan. apply tan_neg. Qed.

Lemma equations_vec x1 y1 x2 y2 h w d alpha g :
  equations [x1; y1; x2; y2] h w d alpha g =
  Some [x2 - (w - d); y2 - h;
        (x2 - x1) ^ 2 + (y2 - y1) ^ 2 - g ^ 2;
        y1 - h + d * np.tan (np.radians alpha)].
Proof. reflexivity. Qed.

Lemma equations_some vars h w d alpha g r :
  equations vars h w d alpha g = Some r ->
  exists x1 y1 x2 y2, vars = [x1; y1; x2; y2].
Proof.
  destruct vars as [|x1 [|y1 [|x2 [|y2 [|z t]]]]]; simpl; try discriminate.
  intros _. now exists x1, y1, x2, y2.
Qed.

(** ** The residual function *)

(** C2: at an unknown vector (x1, y1, x2, y2) the residual function returns
    the four values x2 - (w - d), y2 - h, (x2 - x1)^2 + (y2 - y1)^2 - g^2 and
    y1 - h + d * tan(radians(alpha)), in this order, where radians(alpha) is
    alpha * pi / 180. *)
Theorem equations_four_residuals x1 y1 x2 y2 h w d alpha g :
  equations [x1; y1; x2; y2] h w d alpha g =
  Some [x2 - (w - d);
        y2 - h;
        (x2 - x1) * (x2 - x1) + (y2 - y1) * (y2 - y1) - g * g;
        y1 - h + d * Rtrigo1.tan (alpha * PI / 180)].
Proof.
  rewrite equations_vec. unfold np.tan, np.radians.
  replace (alpha * (PI / 180)) with (alpha * PI / 180) by lra.
  repeat f_equal; ring.
Qed.

(** ** Which unknowns each equation reads *)

(** The third residual reads [x1]: changing only [x1] changes it by the
    difference of the two squared horizontal distances. *)
Lemma gap_residual_reads_x1 x1 x1' y1 x2 y2 h w d alpha g e3 e3' :
  residual 2 [x1; y1; x2; y2] h w d alpha g = Some e3 ->
  residual 2 [x1'; y1; x2; y2] h w d alpha g = Some e3' ->
  e3 - e3' = (x2 - x1) ^ 2 - (x2 - x1') ^ 2.
Proof.
  unfold residual. rewrite !equations_vec. simpl.
  intros [= <-] [= <-]. ring.
Qed.

(** Counterexample to C3 as stated: with the program's own example
    parameters (h = 10, w = 15, d = 5, alpha = 30, g = 2), the vectors
    (7.5, 5, 10, 10) and (8, 5, 10, 10) differ only in x1, yet the residual
    vectors differ (third component 27.25 against 25). *)
Lemma equations_x1_counterexample :
  equations [7.5; 5; 10; 10] 10 15 5 30 2 <>
  equations [8; 5; 10; 10] 10 15 5 30 2.
Proof.
  rewrite !equations_vec. intros [= H]. lra.
Qed.

(** C3 (amended): for two unknown vectors that differ only in x1, the first,
    second and fourth residuals are the same, and the third residuals differ
    by (x2 - x1)^2 - (x2 - x1')^2; the two residual vectors are equal exactly
    when x1' = x1 or x1' is the mirror image 2*x2 - x1. *)
Theorem equations_x1_only_in_gap x1 x1' y1 x2 y2 h w d alpha g :
  (exists e1 e2 e3 e3' e4,
      equations [x1; y1; x2; y2] h w d alpha g = Some [e1; e2; e3; e4] /\
      equations [x1'; y1; x2; y2] h w d alpha g = Some [e1; e2; e3'; e4] /\
      e3 - e3' = (x2 - x1) ^ 2 - (x2 - x1') ^ 2) /\
  (equations [x1; y1; x2; y2] h w d alpha g =
   equations [x1'; y1; x2; y2] h w d alpha g <->
   x1' = x1 \/ x1' = 2 * x2 - x1).
Proof.
  split.
  - do 5 eexists. rewrite !equations_vec.
    split; [reflexivity|]. split; [reflexivity|]. ring.
  - rewrite !equations_vec. split.
    + intros [= H].
      assert (E : (x1' - x1) * (x1' - (2 * x2 - x1)) = 0) by nra.
      apply Rmult_integral in E. destruct E; [left | right]; lra.
    + intros [-> | ->]; [reflexivity|].
      do 3 f_equal. f_equal. ring.
Qed.

(** C9: negating the gap parameter g does not change the residual function,
    on any unknown vector, and therefore the roots for g and for -g are the
    same. *)
Theorem equations_gap_sign vars h w d alpha g :
  equations vars h w d alpha g = equations vars h w d alpha (- g) /\
  (is_root vars h w d alpha g <-> is_root vars h w d alpha (- g)).
Proof.
  assert (E : equations vars h w d alpha g = equations vars h w d alpha (- g)).
  { destruct vars as [|x1 [|y1 [|x2 [|y2 [|z t]]]]]; simpl; try reflexivity.
    do 3 f_equal. f_equal. ring. }
  split; [exact E|]. unfold is_root. now rewrite E.
Qed.

(** C10: the third residual is unchanged when (x1, y1) and (x2, y2) are
    swapped; the first residual is the same for all vectors with the same x2,
    the second for all vectors with the same y2, the fourth for all vectors
    with the same y1, and each of the three does vary with that unknown. *)
Theorem gap_equation_symmetric x1 y1 x2 y2 h w d alpha g :
  residual 2 [x1; y1; x2; y2] h w d alpha g =
  residual 2 [x2; y2; x1; y1] h w d alpha g /\
  (forall a b c, residual 0 [a; b; x2; c] h w d alpha g =
                 residual 0 [x1; y1; x2; y2] h w d alpha g) /\
  (forall a b c, residual 1 [a; b; c; y2] h w d alpha g =
                 residual 1 [x1; y1; x2; y2] h w d alpha g) /\
  (forall a b c, residual 3 [a; y1; b; c] h w d alpha g =
                 residual 3 [x1; y1; x2; y2] h w d alpha g) /\
  (forall t, residual 0 [x1; y1; t; y2] h w d alpha g =
             residual 0 [x1; y1; x2; y2] h w d alpha g -> t = x2) /\
  (forall t, residual 1 [x1; y1; x2; t] h w d alpha g =
             residual 1 [x1; y1; x2; y2] h w d alpha g -> t = y2) /\
  (forall t, residual 3 [x1; t; x2; y2] h w d alpha g =
             residual 3 [x1; y1; x2; y2] h w d alpha g -> t = y1).
Proof.
  unfold residual. rewrite !equations_vec. simpl.
  repeat match goal with |- _ /\ _ => split end.
  - f_equal. ring.
  - reflexivity.
  - reflexivity.
  - reflexivity.
  - intros t [= H]. lra.
  - intros t [= H]. lra.
  - intros t [= H]. lra.
Qed.

(** ** Tolerances and roots, componentwise *)

Lemma within_tolerance_vec tol x1 y1 x2 y2 h w d alpha g :
  within_tolerance tol [x1; y1; x2; y2] h w d alpha g <->
  Rabs (x2 - (w - d)) <= tol /\
  Rabs (y2 - h) <= tol /\
  Rabs ((x2 - x1) ^ 2 + (y2 - y1) ^ 2 - g ^ 2) <= tol /\
  Rabs (y1 - h + d * np.tan (np.radians alpha)) <= tol.
Proof.
  unfold within_tolerance. rewrite equations_vec. split.
  - intros (r & [= <-] & F).
    inversion_clear F as [|? ? F1 F']. inversion_clear F' as [|? ? F2 F''].
    inversion_clear F'' as [|? ? F3 F''']. inversion_clear F''' as [|? ? F4 _].
    auto.
  - intros (F1 & F2 & F3 & F4). eexists. split; [reflexivity|].
    repeat (apply Forall_cons; [assumption|]). apply Forall_nil.
Qed.

Lemma is_root_vec x1 y1 x2 y2 h w d alpha g :
  is_root [x1; y1; x2; y2] h w d alpha g <->
  x2 = w - d /\ y2 = h /\
  (x2 - x1) ^ 2 + (y2 - y1) ^ 2 = g ^ 2 /\
  y1 = h - d * np.tan (np.radians alpha).
Proof.
  unfold is_root. rewrite equations_vec. split.
  - intros [= E1 E2 E3 E4]. repeat split; lra.
  - intros (E1 & E2 & E3 & E4). do 2 f_equal; [lra|]. f_equal; [lra|].
    f_equal; [lra|]. f_equal. lra.
Qed.

Lemma solve_pivot_points_iterate fsolve h w d alpha g x1 y1 x2 y2 :
  solve_pivot_points fsolve h w d alpha g = Some ((x1, y1), (x2, y2)) <->
  fsolve equations (initial_guess h w d) (h, w, d, alpha, g) = [x1; y1; x2; y2].
Proof.
  unfold solve_pivot_points.
  destruct (fsolve equations (initial_guess h w d) (h, w, d, alpha, g))
    as [|a [|b [|c [|e [|z t]]]]]; split; try discriminate.
  - now intros [= -> -> -> ->].
  - now intros [= -> -> -> ->].
Qed.

(** At a root the two pivot points are |g| apart. *)
Lemma root_distance x1 y1 x2 y2 h w d alpha g :
  is_root [x1; y1; x2; y2] h w d alpha g ->
  pivot_distance x1 y1 x2 y2 = Rabs g.
Proof.
  intros Hr. apply is_root_vec in Hr. destruct Hr as (_ & _ & E3 & _).
  unfold pivot_distance. rewrite E3, <- Rsqr_pow2. apply sqrt_Rsqr_abs.
Qed.

(** A root exists only when the gap is at least the vertical offset
    d * tan(radians(alpha)) of the box pivot. *)
Lemma root_needs_gap vars h w d alpha g :
  is_root vars h w d alpha g ->
  (d * np.tan (np.radians alpha)) ^ 2 <= g ^ 2.
Proof.
  intros Hr. destruct (equations_some _ _ _ _ _ _ _ Hr) as (x1 & y1 & x2 & y2 & ->).
  apply is_root_vec in Hr. destruct Hr as (_ & E2 & E3 & E4).
  rewrite <- E3, E2, E4.
  replace (h - (h - d * np.tan (np.radians alpha)))
    with (d * np.tan (np.radians alpha)) by ring.
  pose proof (pow2_ge_0 (x2 - x1)). lra.
Qed.

Lemma tan_radians_30_sqr : 3 * np.tan (np.radians 30) ^ 2 = 1.
Proof.
  replace (np.radians 30) with (PI / 6) by (unfold np.radians; lra).
  unfold np.tan. rewrite tan_PI6.
  assert (S3 : sqrt 3 * sqrt 3 = 3) by (apply sqrt_sqrt; lra).
  assert (P3 : 0 < sqrt 3) by (apply sqrt_lt_R0; lra).
  replace (3 * (1 / sqrt 3) ^ 2) with (3 / (sqrt 3 * sqrt 3)) by (field; lra).
  rewrite S3. field.
Qed.

(** The parameters of the program's own example (h = 10, w = 15, d = 5,
    alpha = 30, g = 2) admit no root: the vertical offset 5 * tan(30 degrees)
    exceeds the gap 2. *)
Lemma example_has_no_root vars : ~ is_root vars 10 15 5 30 2.
Proof.
  intros Hr. apply root_needs_gap in Hr.
  pose proof tan_radians_30_sqr as T. nra.
Qed.

(** ** The solve run on concrete inputs *)

Lemma radians_45 : np.radians 45 = PI / 4.
Proof. unfold np.radians. lra. Qed.

Lemma tan_radians_45 : np.tan (np.radians 45) = 1.
Proof. rewrite radians_45. unfold np.tan. apply tan_PI4. Qed.

Lemma tan_radians_m45 : np.tan (np.radians (Ropp 45)) = Ropp 1.
Proof. rewrite tan_radians_opp, tan_radians_45. reflexivity. Qed.

Lemma fsolve_linear_step_45 :
  solve_pivot_points fsolve_linear_step 10 14 3 45 5 = Some ((7, 7), (11, 10)).
Proof.
  apply solve_pivot_points_iterate. unfold fsolve_linear_step, initial_guess.
  rewrite equations_vec, tan_radians_45.
  f_equal; [lra|]. f_equal; [lra|]. f_equal; [lra|]. f_equal. lra.
Qed.

Lemma fsolve_linear_step_m45 :
  solve_pivot_points fsolve_linear_step 10 14 3 (Ropp 45) 5 = Some ((7, 13), (11, 10)).
Proof.
  apply solve_pivot_points_iterate. unfold fsolve_linear_step, initial_guess.
  rewrite equations_vec, tan_radians_m45.
  f_equal; [lra|]. f_equal; [lra|]. f_equal; [lra|]. f_equal. lra.
Qed.

Lemma root_45 : is_root [7; 7; 11; 10] 10 14 3 45 5.
Proof. apply is_root_vec. rewrite tan_radians_45. repeat split; lra. Qed.

Lemma root_m45 : is_root [7; 13; 11; 10] 10 14 3 (Ropp 45) 5.
Proof. apply is_root_vec. rewrite tan_radians_m45. repeat split; lra. Qed.

Lemma root_within_tolerance tol vars h w d alpha g :
  0 <= tol -> is_root vars h w d alpha g ->
  within_tolerance tol vars h w d alpha g.
Proof.
  intros Htol Hr. exists [0; 0; 0; 0]. split; [exact Hr|].
  repeat (apply Forall_cons; [rewrite Rabs_R0; exact Htol|]). apply Forall_nil.
Qed.

Lemma fsolve_linear_step_0 :
  solve_pivot_points fsolve_linear_step 10 14 3 0 4 = Some ((7, 10), (11, 10)).
Proof.
  apply solve_pivot_points_iterate. unfold fsolve_linear_step, initial_guess.
  rewrite equations_vec, tan_radians_0.
  f_equal; [lra|]. f_equal; [lra|]. f_equal; [lra|]. f_equal. lra.
Qed.

Lemma root_0 : is_root [7; 10; 11; 10] 10 14 3 0 4.
Proof. apply is_root_vec. rewrite tan_radians_0. repeat split; lra. Qed.

(** ** The solve *)

(** C7: whatever the root finder and the input, the solve is the unpacking
    of the root finder's answer to the call with the residual function
    [equations], the starting vector (w/2, h/2, w - d, h) and the arguments
    (h, w, d, alpha, g): it returns two points exactly when that call answers
    the four numbers they are made of. In particular a root finder that
    answers its starting vector makes the solve return ((w/2, h/2), (w - d, h)).
    At that starting vector the first and the second residual are exactly
    zero. *)
Theorem seed_satisfies_linear_equations (fsolve : Solver) h w d alpha g :
  (forall x1 y1 x2 y2,
      solve_pivot_points fsolve h w d alpha g = Some ((x1, y1), (x2, y2)) <->
      fsolve equations [w / 2; h / 2; w - d; h] (h, w, d, alpha, g) =
      [x1; y1; x2; y2]) /\
  (solve_pivot_points fsolve h w d alpha g = None <->
   length (fsolve equations [w / 2; h / 2; w - d; h] (h, w, d, alpha, g)) <> 4%nat) /\
  solve_pivot_points fsolve_echo h w d alpha g =
  Some ((w / 2, h / 2), (w - d, h)) /\
  residual 0 [w / 2; h / 2; w - d; h] h w d alpha g = Some 0 /\
  residual 1 [w / 2; h / 2; w - d; h] h w d alpha g = Some 0.
Proof.
  repeat match goal with |- _ /\ _ => split end.
  - intros x1 y1 x2 y2. apply solve_pivot_points_iterate.
  - unfold solve_pivot_points, initial_guess.
    destruct (fsolve equations [w / 2; h / 2; w - d; h] (h, w, d, alpha, g))
      as [|a [|b [|c [|e [|z t]]]]]; simpl;
      try (split; [intros _; discriminate | reflexivity]).
    split; [discriminate | intros H; now elim H].
  - reflexivity.
  - unfold residual. rewrite equations_vec. simpl. f_equal. ring.
  - unfold residual. rewrite equations_vec. simpl. f_equal. ring.
Qed.

(** C5: when the solve returns a vector at which every residual is within
    the tolerance, the returned y1 is within the tolerance of
    h - d * tan(radians(alpha)); when moreover alpha = 0, the fourth residual
    is y1 - h and the returned y1 is within the tolerance of h. *)
Theorem angle_consistency (fsolve : Solver) tol h w d alpha g x1 y1 x2 y2 :
  solve_pivot_points fsolve h w d alpha g = Some ((x1, y1), (x2, y2)) ->
  within_tolerance tol [x1; y1; x2; y2] h w d alpha g ->
  Rabs (y1 - (h - d * np.tan (np.radians alpha))) <= tol /\
  (alpha = 0 ->
   residual 3 [x1; y1; x2; y2] h w d alpha g = Some (y1 - h) /\
   Rabs (y1 - h) <= tol).
Proof.
  intros _ Htol. apply within_tolerance_vec in Htol.
  destruct Htol as (_ & _ & _ & H4).
  split.
  - replace (y1 - (h - d * np.tan (np.radians alpha)))
      with (y1 - h + d * np.tan (np.radians alpha)) by ring.
    exact H4.
  - intros ->. unfold residual. rewrite equations_vec. simpl.
    rewrite tan_radians_0 in *.
    replace (y1 - h + d * 0) with (y1 - h) in * by ring.
    split; [reflexivity | exact H4].
Qed.

(** The one-step solver meets the tolerance 1e-6 at alpha = 45 and at
    alpha = 0; the statement of C5 is run on both. *)
Lemma angle_consistency_witness :
  (solve_pivot_points fsolve_linear_step 10 14 3 45 5 = Some ((7, 7), (11, 10)) /\
   within_tolerance (1 / 1000000) [7; 7; 11; 10] 10 14 3 45 5 /\
   Rabs (7 - (10 - 3 * np.tan (np.radians 45))) <= 1 / 1000000) /\
  (solve_pivot_points fsolve_linear_step 10 14 3 0 4 = Some ((7, 10), (11, 10)) /\
   within_tolerance (1 / 1000000) [7; 10; 11; 10] 10 14 3 0 4 /\
   Rabs (10 - 10) <= 1 / 1000000).
Proof.
  assert (T : 0 <= 1 / 1000000) by lra.
  split.
  - split; [exact fsolve_linear_step_45|].
    split; [exact (root_within_tolerance _ _ _ _ _ _ _ T root_45)|].
    exact (proj1 (angle_consistency fsolve_linear_step _ _ _ _ _ _ _ _ _ _
                    fsolve_linear_step_45
                    (root_within_tolerance _ _ _ _ _ _ _ T root_45))).
  - split; [exact fsolve_linear_step_0|].
    split; [exact (root_within_tolerance _ _ _ _ _ _ _ T root_0)|].
    exact (proj2 (proj2 (angle_consistency fsolve_linear_step _ _ _ _ _ _ _ _ _ _
                           fsolve_linear_step_0
                           (root_within_tolerance _ _ _ _ _ _ _ T root_0))
                   eq_refl)).
Defined.

(** C6: the fourth residual changes sign when alpha is negated and y1 is
    mirrored about h; a root (x1, y1, x2, y2) for alpha gives the vector
    (x1, 2h - y1, x2, y2) at which residuals 1, 2 and 4 vanish for -alpha
    (it is in fact a root for -alpha); and when the solves for alpha and for
    -alpha both return vectors within the tolerance, the two returned y1 add
    up to 2h up to twice the tolerance. *)
Theorem angle_sign_symmetry h w d alpha g :
  (forall x1 y1 x2 y2 e4,
      residual 3 [x1; y1; x2; y2] h w d alpha g = Some e4 ->
      residual 3 [x1; 2 * h - y1; x2; y2] h w d (- alpha) g = Some (- e4)) /\
  (forall x1 y1 x2 y2,
      is_root [x1; y1; x2; y2] h w d alpha g ->
      residual 0 [x1; 2 * h - y1; x2; y2] h w d (- alpha) g = Some 0 /\
      residual 1 [x1; 2 * h - y1; x2; y2] h w d (- alpha) g = Some 0 /\
      residual 3 [x1; 2 * h - y1; x2; y2] h w d (- alpha) g = Some 0 /\
      is_root [x1; 2 * h - y1; x2; y2] h w d (- alpha) g) /\
  (forall (fsolve : Solver) tol x1 y1 x2 y2 x1' y1' x2' y2',
      solve_pivot_points fsolve h w d alpha g = Some ((x1, y1), (x2, y2)) ->
      solve_pivot_points fsolve h w d (- alpha) g = Some ((x1', y1'), (x2', y2')) ->
      within_tolerance tol [x1; y1; x2; y2] h w d alpha g ->
      within_tolerance tol [x1'; y1'; x2'; y2'] h w d (- alpha) g ->
      Rabs (y1 + y1' - 2 * h) <= 2 * tol).
Proof.
  repeat match goal with |- _ /\ _ => split end.
  - intros x1 y1 x2 y2 e4. unfold residual. rewrite !equations_vec. simpl.
    rewrite tan_radians_opp. intros [= <-]. f_equal. ring.
  - intros x1 y1 x2 y2 Hr.
    assert (Hm : is_root [x1; 2 * h - y1; x2; y2] h w d (- alpha) g).
    { apply is_root_vec in Hr. destruct Hr as (E1 & E2 & E3 & E4).
      apply is_root_vec. rewrite tan_radians_opp.
      repeat match goal with |- _ /\ _ => split end; try lra.
      rewrite <- E3, E2. ring. }
    unfold residual. unfold is_root in Hm. rewrite Hm. simpl. auto.
  - intros fsolve tol x1 y1 x2 y2 x1' y1' x2' y2' _ _ Ha Hb.
    apply within_tolerance_vec in Ha. apply within_tolerance_vec in Hb.
    destruct Ha as (_ & _ & _ & Ha). destruct Hb as (_ & _ & _ & Hb).
    rewrite tan_radians_opp in Hb.
    replace (y1 + y1' - 2 * h)
      with ((y1 - h + d * np.tan (np.radians alpha)) +
            (y1' - h + d * - np.tan (np.radians alpha))) by ring.
    eapply Rle_trans; [apply Rabs_triang|]. lra.
Qed.

(** The statement of C6 run at h = 10, w = 14, d = 3, g = 5 and alpha = 45:
    the one-step solver returns y1 = 7 for 45 degrees and y1 = 13 for -45
    degrees, which add up to 2h = 20. *)
Lemma angle_sign_symmetry_witness :
  solve_pivot_points fsolve_linear_step 10 14 3 45 5 = Some ((7, 7), (11, 10)) /\
  solve_pivot_points fsolve_linear_step 10 14 3 (Ropp 45) 5 = Some ((7, 13), (11, 10)) /\
  within_tolerance 0 [7; 7; 11; 10] 10 14 3 45 5 /\
  within_tolerance 0 [7; 13; 11; 10] 10 14 3 (Ropp 45) 5 /\
  Rabs (7 + 13 - 2 * 10) <= 2 * 0 /\
  is_root [7; 2 * 10 - 7; 11; 10] 10 14 3 (Ropp 45) 5.
Proof.
  pose proof (Rle_refl 0) as T.
  pose proof (root_within_tolerance 0 _ _ _ _ _ _ T root_45) as W1.
  pose proof (root_within_tolerance 0 _ _ _ _ _ _ T root_m45) as W2.
  repeat match goal with |- _ /\ _ => split end.
  - exact fsolve_linear_step_45.
  - exact fsolve_linear_step_m45.
  - exact W1.
  - exact W2.
  - exact (proj2 (proj2 (angle_sign_symmetry 10 14 3 45 5))
             fsolve_linear_step 0 7 7 11 10 7 13 11 10
             fsolve_linear_step_45 fsolve_linear_step_m45 W1 W2).
  - exact (proj2 (proj2 (proj2
             (proj1 (proj2 (angle_sign_symmetry 10 14 3 45 5)) 7 7 11 10 root_45)))).
Defined.

(** *** With Python's exceptions *)

Lemma py_pow2_in_range x :
  x ^ 2 <= Py.float_max -> Py.pow2 x = Py.Ok (x ^ 2).
Proof.
  intros H. unfold Py.pow2. destruct (Rlt_dec Py.float_max (x ^ 2)); [lra | reflexivity].
Qed.

Lemma py_pow2_overflow x :
  Py.float_max < x ^ 2 -> Py.pow2 x = Py.Raise Py.OverflowError.
Proof.
  intros H. unfold Py.pow2.
  destruct (Rlt_dec Py.float_max (x ^ 2)); [reflexivity | contradiction].
Qed.

(** In range, the reading with exceptions computes the residuals of the exact
    reading. *)
Lemma py_equations_in_range vars h w d alpha g :
  g ^ 2 <= Py.float_max ->
  Py.equations vars h w d alpha g =
  match equations vars h w d alpha g with
  | Some r => Py.Ok r
  | None => Py.Raise Py.ValueError
  end.
Proof.
  intros H. destruct vars as [|x1 [|y1 [|x2 [|y2 [|z t]]]]]; try reflexivity.
  unfold Py.equations. rewrite (py_pow2_in_range _ H). reflexivity.
Qed.

Lemma py_equations_overflow x1 y1 x2 y2 h w d alpha g :
  Py.float_max < g ^ 2 ->
  Py.equations [x1; y1; x2; y2] h w d alpha g = Py.Raise Py.OverflowError.
Proof.
  intros H. unfold Py.equations. rewrite (py_pow2_overflow _ H). reflexivity.
Qed.

Lemma py_fsolve_echo_evaluates_start : Py.evaluates_start Py.fsolve_echo.
Proof.
  intros func x0 h w d alpha g e H. unfold Py.fsolve_echo. rewrite H. reflexivity.
Qed.

Lemma py_solve_overflow (fsolve : Py.Solver) h w d alpha g :
  Py.evaluates_start fsolve -> Py.float_max < g ^ 2 ->
  Py.solve_pivot_points fsolve h w d alpha g = Py.Raise Py.OverflowError.
Proof.
  intros Hs Hg. unfold Py.solve_pivot_points.
  rewrite (Hs Py.equations (initial_guess h w d) h w d alpha g Py.OverflowError).
  - reflexivity.
  - unfold initial_guess. apply py_equations_overflow. exact Hg.
Qed.

(** 1e200 squared is out of the range of a double. *)
Lemma float_max_lt_1e400 : Py.float_max < (10 ^ 200) ^ 2.
Proof. unfold Py.float_max. lra. Qed.

(** Counterexample to C8 as stated: at g = 1e200 (with the script's other
    values) the residual function raises OverflowError at the starting
    vector, on line 14's g**2, and the solve does not return a pair: the
    exception reaches the caller through every root finder that evaluates
    its function at the starting vector, the least such root finder
    included. *)
Lemma solve_overflow_counterexample :
  Py.equations (initial_guess 10 15 5) 10 15 5 30 (10 ^ 200) =
  Py.Raise Py.OverflowError /\
  Py.solve_pivot_points Py.fsolve_echo 10 15 5 30 (10 ^ 200) =
  Py.Raise Py.OverflowError /\
  (forall fsolve : Py.Solver,
      Py.evaluates_start fsolve ->
      Py.solve_pivot_points fsolve 10 15 5 30 (10 ^ 200) =
      Py.Raise Py.OverflowError) /\
  ~ (forall (fsolve : Py.Solver) h w d alpha g,
        Py.evaluates_start fsolve ->
        exists p, Py.solve_pivot_points fsolve h w d alpha g = Py.Ok p).
Proof.
  pose proof float_max_lt_1e400 as B.
  repeat match goal with |- _ /\ _ => split end.
  - unfold initial_guess. apply py_equations_overflow. exact B.
  - apply py_solve_overflow; [exact py_fsolve_echo_evaluates_start | exact B].
  - intros fsolve Hs. apply py_solve_overflow; assumption.
  - intros H.
    destruct (H Py.fsolve_echo 10 15 5 30 (10 ^ 200) py_fsolve_echo_evaluates_start)
      as (p & Hp).
    rewrite (py_solve_overflow _ _ _ _ _ _ py_fsolve_echo_evaluates_start B) in Hp.
    discriminate Hp.
Qed.

(** C8 (amended): the solve validates nothing and catches nothing, but it
    does not return on every input. Whenever the root finder answers four
    numbers (its final iterate, converged or not), the solve returns exactly
    these numbers as the two pivot points; an exception that leaves the root
    finder leaves the solve unchanged. The residual function rejects no
    parameter value, a right angle included: on four unknowns it returns its
    four residuals whenever g^2 is within the float range, and raises
    OverflowError exactly when g^2 exceeds it; that error reaches the caller
    of the solve through every root finder that evaluates its function at the
    starting vector. *)
Theorem solve_no_validation (fsolve : Py.Solver) h w d alpha g :
  (forall x1 y1 x2 y2,
      fsolve Py.equations (initial_guess h w d) (h, w, d, alpha, g) =
      Py.Ok [x1; y1; x2; y2] <->
      Py.solve_pivot_points fsolve h w d alpha g = Py.Ok ((x1, y1), (x2, y2))) /\
  (forall e,
      fsolve Py.equations (initial_guess h w d) (h, w, d, alpha, g) = Py.Raise e ->
      Py.solve_pivot_points fsolve h w d alpha g = Py.Raise e) /\
  (forall x1 y1 x2 y2,
      (g ^ 2 <= Py.float_max ->
       Py.equations [x1; y1; x2; y2] h w d alpha g =
       Py.Ok [x2 - (w - d); y2 - h;
              (x2 - x1) ^ 2 + (y2 - y1) ^ 2 - g ^ 2;
              y1 - h + d * np.tan (np.radians alpha)]) /\
      (Py.float_max < g ^ 2 <->
       Py.equations [x1; y1; x2; y2] h w d alpha g = Py.Raise Py.OverflowError)) /\
  (Py.evaluates_start fsolve -> Py.float_max < g ^ 2 ->
   Py.solve_pivot_points fsolve h w d alpha g = Py.Raise Py.OverflowError).
Proof.
  split; [|split; [|split]].
  - intros x1 y1 x2 y2. unfold Py.solve_pivot_points. split.
    + intros E. rewrite E. reflexivity.
    + destruct (fsolve Py.equations (initial_guess h w d) (h, w, d, alpha, g))
        as [[|a [|b [|c [|e [|z t]]]]] | e]; simpl; try discriminate.
      now intros [= -> -> -> ->].
  - intros e E. unfold Py.solve_pivot_points. rewrite E. reflexivity.
  - intros x1 y1 x2 y2. split; [|split].
    + intros H. rewrite (py_equations_in_range _ _ _ _ _ _ H). reflexivity.
    + apply py_equations_overflow.
    + intros E. destruct (Rlt_dec Py.float_max (g ^ 2)) as [|N]; [assumption|].
      apply Rnot_lt_le in N.
      rewrite (py_equations_in_range _ _ _ _ _ _ N) in E. discriminate E.
  - apply py_solve_overflow.
Qed.

(** The statement of C8 run with the least root finder: at a right angle
    (h = 10, w = 15, d = 5, alpha = 90, g = 2) the solve returns the pair made
    of the root finder's answer, and at g = 1e200 it raises OverflowError. *)
Lemma solve_no_validation_witness :
  Py.solve_pivot_points Py.fsolve_echo 10 15 5 90 2 =
  Py.Ok ((15 / 2, 10 / 2), (15 - 5, 10)) /\
  Py.solve_pivot_points Py.fsolve_echo 10 15 5 30 (10 ^ 200) =
  Py.Raise Py.OverflowError.
Proof.
  split.
  - apply (proj1 (proj1 (solve_no_validation Py.fsolve_echo 10 15 5 90 2)
                    (15 / 2) (10 / 2) (15 - 5) 10)).
    unfold Py.fsolve_echo, initial_guess. cbv beta iota.
    rewrite (py_equations_in_range [15 / 2; 10 / 2; 15 - 5; 10] 10 15 5 90 2)
      by (unfold Py.float_max; lra).
    reflexivity.
  - exact (proj2 (proj2 (proj2 (solve_no_validation Py.fsolve_echo 10 15 5 30 (10 ^ 200))))
             py_fsolve_echo_evaluates_start float_max_lt_1e400).
Defined.

(** An iterate that is not within tolerance 1 of a root is returned like any
    other. *)
Lemma echo_not_converged :
  solve_pivot_points fsolve_echo 10 15 5 30 2 = Some ((15 / 2, 10 / 2), (15 - 5, 10)) /\
  ~ within_tolerance 1 [15 / 2; 10 / 2; 15 - 5; 10] 10 15 5 30 2.
Proof.
  split; [reflexivity|].
  intros H. apply within_tolerance_vec in H. destruct H as (_ & _ & H3 & _).
  pose proof (Rle_abs ((15 - 5 - 15 / 2) ^ 2 + (10 - 10 / 2) ^ 2 - 2 ^ 2)).
  lra.
Qed.

(** ** Further properties of the residual function *)

(** X3: the roots in closed form. A vector is a root exactly when
    x2 = w - d, y2 = h, y1 = h - d*tan(radians(alpha)), the vertical offset
    d*tan(radians(alpha)) is at most the gap in absolute value, and x1 lies
    sqrt(g^2 - (d*tan(radians(alpha)))^2) to the left or to the right of x2. *)
Theorem roots_closed_form x1 y1 x2 y2 h w d alpha g :
  is_root [x1; y1; x2; y2] h w d alpha g <->
  x2 = w - d /\ y2 = h /\
  y1 = h - d * np.tan (np.radians alpha) /\
  (d * np.tan (np.radians alpha)) ^ 2 <= g ^ 2 /\
  (x1 = x2 - sqrt (g ^ 2 - (d * np.tan (np.radians alpha)) ^ 2) \/
   x1 = x2 + sqrt (g ^ 2 - (d * np.tan (np.radians alpha)) ^ 2)).
Proof.
  rewrite is_root_vec.
  set (T := d * np.tan (np.radians alpha)).
  split.
  - intros (E1 & E2 & E3 & E4).
    assert (Hx : (x2 - x1) ^ 2 = g ^ 2 - T ^ 2).
    { rewrite <- E3, E2, E4. ring. }
    assert (Hge : 0 <= g ^ 2 - T ^ 2).
    { rewrite <- Hx. apply pow2_ge_0. }
    pose proof (sqrt_sqrt _ Hge) as Hs.
    repeat match goal with |- _ /\ _ => split end; try assumption; try lra.
    set (s := sqrt (g ^ 2 - T ^ 2)) in *.
    assert (E : (x2 - x1 - s) * (x2 - x1 + s) = 0) by nra.
    apply Rmult_integral in E. destruct E; [left | right]; lra.
  - intros (E1 & E2 & E4 & Hle & Hx).
    assert (Hge : 0 <= g ^ 2 - T ^ 2) by lra.
    pose proof (sqrt_sqrt _ Hge) as Hs.
    set (s := sqrt (g ^ 2 - T ^ 2)) in *.
    repeat match goal with |- _ /\ _ => split end; try assumption.
    rewrite E2, E4. fold T.
    destruct Hx as [-> | ->]; nra.
Qed.

(** X4: the system has a root exactly when the vertical offset
    d*tan(radians(alpha)) of the box pivot is at most the gap g in absolute
    value (their squares compared). *)
Theorem root_exists_iff h w d alpha g :
  (exists vars, is_root vars h w d alpha g) <->
  (d * np.tan (np.radians alpha)) ^ 2 <= g ^ 2.
Proof.
  split.
  - intros (vars & Hr). exact (root_needs_gap _ _ _ _ _ _ Hr).
  - intros Hle.
    exists [w - d - sqrt (g ^ 2 - (d * np.tan (np.radians alpha)) ^ 2);
            h - d * np.tan (np.radians alpha); w - d; h].
    apply is_root_vec.
    assert (Hge : 0 <= g ^ 2 - (d * np.tan (np.radians alpha)) ^ 2) by lra.
    pose proof (sqrt_sqrt _ Hge) as Hs.
    repeat match goal with |- _ /\ _ => split end; try reflexivity.
    nra.
Qed.

(** X5: a system with a root has at most two: given one root
    (x1, y1, x2, y2), a vector is a root of the same parameters exactly when
    it has the same y1, x2 and y2 and its first component is x1 or the mirror
    image 2*x2 - x1. *)
Theorem roots_mirror x1 y1 x2 y2 a b c e h w d alpha g :
  is_root [x1; y1; x2; y2] h w d alpha g ->
  (is_root [a; b; c; e] h w d alpha g <->
   b = y1 /\ c = x2 /\ e = y2 /\ (a = x1 \/ a = 2 * x2 - x1)).
Proof.
  rewrite !is_root_vec. intros (E1 & E2 & E3 & E4). split.
  - intros (F1 & F2 & F3 & F4).
    assert (Hb : b = y1) by lra. assert (Hc : c = x2) by lra.
    assert (He : e = y2) by lra.
    repeat match goal with |- _ /\ _ => split end; try assumption.
    rewrite Hb, Hc, He in F3.
    assert (E : (a - x1) * (a - (2 * x2 - x1)) = 0) by nra.
    apply Rmult_integral in E. destruct E; [left | right]; lra.
  - intros (-> & -> & -> & Ha).
    repeat match goal with |- _ /\ _ => split end; try assumption.
    destruct Ha as [-> | ->]; [assumption|].
    rewrite <- E3. ring.
Qed.

(** The statement of X5 run on the root (7, 7, 11, 10) of h = 10, w = 14,
    d = 3, alpha = 45, g = 5: its mirror image (15, 7, 11, 10) is the other
    root. *)
Lemma roots_mirror_witness :
  is_root [7; 7; 11; 10] 10 14 3 45 5 /\
  is_root [2 * 11 - 7; 7; 11; 10] 10 14 3 45 5.
Proof.
  split; [exact root_45|].
  apply (proj2 (roots_mirror 7 7 11 10 (2 * 11 - 7) 7 11 10 10 14 3 45 5 root_45)).
  repeat match goal with |- _ /\ _ => split end; try reflexivity.
  right. reflexivity.
Defined.

(** ** The gap between the pivots *)

(** X6: at a root the two pivot points are exactly |g| apart, hence g apart
    when g is not negative, and they coincide when g = 0. *)
Theorem root_pivots_gap_apart x1 y1 x2 y2 h w d alpha g :
  is_root [x1; y1; x2; y2] h w d alpha g ->
  pivot_distance x1 y1 x2 y2 = Rabs g /\
  (0 <= g -> pivot_distance x1 y1 x2 y2 = g) /\
  (g = 0 -> x1 = x2 /\ y1 = y2).
Proof.
  intros Hr. pose proof (root_distance _ _ _ _ _ _ _ _ _ Hr) as Hd.
  split; [exact Hd|]. split.
  - intros Hg. rewrite Hd. apply Rabs_right. lra.
  - intros ->. apply is_root_vec in Hr. destruct Hr as (_ & _ & E3 & _).
    pose proof (pow2_ge_0 (x2 - x1)). pose proof (pow2_ge_0 (y2 - y1)).
    split; nra.
Qed.

(** The statement of X6 run on the root (7, 7, 11, 10) of h = 10, w = 14,
    d = 3, alpha = 45, g = 5. *)
Lemma root_pivots_gap_apart_witness :
  is_root [7; 7; 11; 10] 10 14 3 45 5 /\ pivot_distance 7 7 11 10 = 5.
Proof.
  split; [exact root_45|].
  apply (proj1 (proj2 (root_pivots_gap_apart 7 7 11 10 10 14 3 45 5 root_45))).
  lra.
Defined.

(** X7: a tolerance on the residuals is not the same tolerance on the
    distance. When the third residual of a vector is at most tol in absolute
    value and g is not zero, the distance between the two pivot points is
    within tol / |g| of |g|. *)
Theorem gap_within_tolerance tol x1 y1 x2 y2 h w d alpha g :
  g <> 0 ->
  within_tolerance tol [x1; y1; x2; y2] h w d alpha g ->
  Rabs (pivot_distance x1 y1 x2 y2 - Rabs g) <= tol / Rabs g.
Proof.
  intros Hg Ht. apply within_tolerance_vec in Ht. destruct Ht as (_ & _ & H3 & _).
  unfold pivot_distance.
  assert (HD : 0 <= (x2 - x1) ^ 2 + (y2 - y1) ^ 2).
  { pose proof (pow2_ge_0 (x2 - x1)). pose proof (pow2_ge_0 (y2 - y1)). lra. }
  pose proof (sqrt_sqrt _ HD) as Hs. pose proof (sqrt_pos ((x2 - x1) ^ 2 + (y2 - y1) ^ 2)) as Hp.
  set (s := sqrt ((x2 - x1) ^ 2 + (y2 - y1) ^ 2)) in *.
  rewrite <- Hs in H3. rewrite <- (pow2_abs g) in H3.
  pose proof (Rabs_pos_lt g Hg) as Ha.
  set (a := Rabs g) in *.
  assert (Hlo : - tol <= s * s - a ^ 2 <= tol).
  { split.
    - pose proof (Rle_abs (- (s * s - a ^ 2))) as L. rewrite Rabs_Ropp in L. lra.
    - pose proof (Rle_abs (s * s - a ^ 2)). lra. }
  assert (Hq : tol / a * a = tol) by (field; lra).
  set (q := tol / a) in *.
  assert (Hq0 : 0 <= q).
  { destruct (Rle_dec 0 q) as [|N]; [assumption | exfalso].
    apply Rnot_le_lt in N. nra. }
  apply Rabs_le. split.
  - destruct (Rle_dec (- q) (s - a)) as [|N]; [assumption | exfalso].
    apply Rnot_le_lt in N.
    assert (P1 : 0 < (a - s - q) * a) by (apply Rmult_lt_0_compat; lra).
    assert (P2 : 0 <= (a - s) * s) by (apply Rmult_le_pos; lra).
    nra.
  - destruct (Rle_dec (s - a) q) as [|N]; [assumption | exfalso].
    apply Rnot_le_lt in N.
    assert (P1 : 0 < (s - a - q) * a) by (apply Rmult_lt_0_compat; lra).
    assert (P2 : 0 <= (s - a) * s) by (apply Rmult_le_pos; lra).
    nra.
Qed.

(** The statement of X7 run on the vector (7, 7, 12, 10) for h = 10, w = 15,
    d = 3, alpha = 45, g = 5 and tolerance 9: the third residual is 9 and the
    distance sqrt 34 is within 9/5 of 5. *)
Lemma gap_within_tolerance_witness :
  5 <> 0 /\
  within_tolerance 9 [7; 7; 12; 10] 10 15 3 45 5 /\
  Rabs (pivot_distance 7 7 12 10 - Rabs 5) <= 9 / Rabs 5.
Proof.
  assert (G : 5 <> 0) by lra.
  assert (W : within_tolerance 9 [7; 7; 12; 10] 10 15 3 45 5).
  { apply within_tolerance_vec. rewrite tan_radians_45.
    repeat match goal with |- _ /\ _ => split end; apply Rabs_le; lra. }
  split; [exact G|]. split; [exact W|].
  exact (gap_within_tolerance 9 7 7 12 10 10 15 3 45 5 G W).
Defined.

(** X8: when the vertical offset d*tan(radians(alpha)) exceeds the gap by
    enough, namely 2*tol <= |offset| and g^2 + tol < (|offset| - 2*tol)^2,
    no vector at all meets the tolerance tol; in particular the solve cannot
    return one, whatever the root finder. *)
Theorem no_vector_within_tolerance (fsolve : Solver) tol h w d alpha g :
  0 <= tol ->
  2 * tol <= Rabs (d * np.tan (np.radians alpha)) ->
  g ^ 2 + tol < (Rabs (d * np.tan (np.radians alpha)) - 2 * tol) ^ 2 ->
  (forall vars, ~ within_tolerance tol vars h w d alpha g) /\
  (forall x1 y1 x2 y2,
      solve_pivot_points fsolve h w d alpha g = Some ((x1, y1), (x2, y2)) ->
      ~ within_tolerance tol [x1; y1; x2; y2] h w d alpha g).
Proof.
  intros Htol Hoff Hgap.
  assert (A : forall vars, ~ within_tolerance tol vars h w d alpha g).
  { intros vars Hw. destruct Hw as (r & Hr & HF).
    destruct (equations_some _ _ _ _ _ _ _ Hr) as (x1 & y1 & x2 & y2 & ->).
    assert (Hw : within_tolerance tol [x1; y1; x2; y2] h w d alpha g)
      by (exists r; auto).
    apply within_tolerance_vec in Hw. destruct Hw as (_ & H2 & H3 & H4).
    set (T := d * np.tan (np.radians alpha)) in *.
    assert (B2 : - tol <= y2 - h <= tol).
    { split.
      - pose proof (Rle_abs (- (y2 - h))) as L. rewrite Rabs_Ropp in L. lra.
      - pose proof (Rle_abs (y2 - h)). lra. }
    assert (B4 : - tol <= y1 - h + T <= tol).
    { split.
      - pose proof (Rle_abs (- (y1 - h + T))) as L. rewrite Rabs_Ropp in L. lra.
      - pose proof (Rle_abs (y1 - h + T)). lra. }
    pose proof (Rle_abs ((x2 - x1) ^ 2 + (y2 - y1) ^ 2 - g ^ 2)) as B3.
    pose proof (pow2_ge_0 (x2 - x1)) as Hx.
    assert (Hy : (Rabs T - 2 * tol) ^ 2 <= (y2 - y1) ^ 2).
    { unfold Rabs in *. destruct (Rcase_abs T); nra. }
    lra. }
  split; [exact A|]. intros x1 y1 x2 y2 _. apply A.
Qed.

Lemma tan_radians_30_bounds :
  57 / 100 < np.tan (np.radians 30) < 58 / 100.
Proof.
  pose proof tan_radians_30_sqr as S.
  assert (P : 0 < np.tan (np.radians 30)).
  { replace (np.radians 30) with (PI / 6) by (unfold np.radians; lra).
    unfold np.tan. apply tan_gt_0; pose proof PI_RGT_0; lra. }
  split; nra.
Qed.

(** The statement of X8 run on the script's own values (h = 10, w = 15,
    d = 5, alpha = 30, g = 2) with tolerance 1/10 and the solver that answers
    its starting point. *)
Lemma no_vector_within_tolerance_witness :
  0 <= 1 / 10 /\
  2 * (1 / 10) <= Rabs (5 * np.tan (np.radians 30)) /\
  2 ^ 2 + 1 / 10 < (Rabs (5 * np.tan (np.radians 30)) - 2 * (1 / 10)) ^ 2 /\
  ~ within_tolerance (1 / 10) [15 / 2; 10 / 2; 15 - 5; 10] 10 15 5 30 2.
Proof.
  pose proof tan_radians_30_bounds as B.
  assert (E : Rabs (5 * np.tan (np.radians 30)) = 5 * np.tan (np.radians 30))
    by (apply Rabs_right; lra).
  assert (H1 : 0 <= 1 / 10) by lra.
  assert (H2 : 2 * (1 / 10) <= Rabs (5 * np.tan (np.radians 30)))
    by (rewrite E; lra).
  assert (H3 : 2 ^ 2 + 1 / 10 <
               (Rabs (5 * np.tan (np.radians 30)) - 2 * (1 / 10)) ^ 2)
    by (rewrite E; nra).
  repeat match goal with |- _ /\ _ => split end; try assumption.
  exact (proj2 (no_vector_within_tolerance fsolve_echo (1 / 10) 10 15 5 30 2
                  H1 H2 H3)
           (15 / 2) (10 / 2) (15 - 5) 10 eq_refl).
Defined.

(** X9: the script's run. With the values the script binds, whatever the
    root finder answers, the two points the script prints are not a root of
    the system, and not even within 1/10 of one in the residuals: the system
    the script asks to solve has no solution. *)
Theorem main_never_converges (fsolve : Solver) :
  (forall vars,
      ~ is_root vars Example.h Example.w Example.d Example.alpha Example.g) /\
  (forall x1 y1 x2 y2,
      main fsolve = Some ((x1, y1), (x2, y2)) ->
      ~ within_tolerance (1 / 10) [x1; y1; x2; y2]
          Example.h Example.w Example.d Example.alpha Example.g).
Proof.
  unfold main, Example.h, Example.w, Example.d, Example.alpha, Example.g.
  split; [exact example_has_no_root|].
  intros x1 y1 x2 y2 _ Hw. apply within_tolerance_vec in Hw.
  destruct Hw as (_ & H2 & H3 & H4).
  pose proof tan_radians_30_bounds as B.
  set (T := np.tan (np.radians 30)) in *.
  assert (B2 : y2 - 10 <= 1 / 10) by (pose proof (Rle_abs (y2 - 10)); lra).
  assert (B2' : - (1 / 10) <= y2 - 10).
  { pose proof (Rle_abs (- (y2 - 10))) as L. rewrite Rabs_Ropp in L. lra. }
  assert (B4 : y1 - 10 + 5 * T <= 1 / 10)
    by (pose proof (Rle_abs (y1 - 10 + 5 * T)); lra).
  pose proof (Rle_abs ((x2 - x1) ^ 2 + (y2 - y1) ^ 2 - 2 ^ 2)) as B3.
  pose proof (pow2_ge_0 (x2 - x1)) as Hx.
  nra.
Qed.

(** ** Changes of frame, of unit and of angle *)

(** X10: the residuals do not depend on where the origin is. Moving the
    frame by (u, v), that is adding u to x1, x2 and w and adding v to y1, y2
    and h, leaves the four residuals unchanged; roots are moved to roots. *)
Theorem equations_translation u v x1 y1 x2 y2 h w d alpha g :
  equations [x1 + u; y1 + v; x2 + u; y2 + v] (h + v) (w + u) d alpha g =
  equations [x1; y1; x2; y2] h w d alpha g /\
  (is_root [x1 + u; y1 + v; x2 + u; y2 + v] (h + v) (w + u) d alpha g <->
   is_root [x1; y1; x2; y2] h w d alpha g).
Proof.
  assert (E : equations [x1 + u; y1 + v; x2 + u; y2 + v] (h + v) (w + u) d alpha g =
              equations [x1; y1; x2; y2] h w d alpha g).
  { rewrite !equations_vec. f_equal. f_equal; [ring|]. f_equal; [ring|].
    f_equal; [ring|]. f_equal. ring. }
  split; [exact E|]. unfold is_root. now rewrite E.
Qed.

(** X11: a change of length unit. Multiplying the four unknowns and the
    lengths h, w, d, g by k (the angle is kept) multiplies the first, second
    and fourth residual by k and the third by k^2; hence roots are sent to
    roots, and for k <> 0 only roots are. *)
Theorem equations_scaling k x1 y1 x2 y2 h w d alpha g :
  (forall e1 e2 e3 e4,
      equations [x1; y1; x2; y2] h w d alpha g = Some [e1; e2; e3; e4] ->
      equations [k * x1; k * y1; k * x2; k * y2] (k * h) (k * w) (k * d) alpha (k * g) =
      Some [k * e1; k * e2; k ^ 2 * e3; k * e4]) /\
  (is_root [x1; y1; x2; y2] h w d alpha g ->
   is_root [k * x1; k * y1; k * x2; k * y2] (k * h) (k * w) (k * d) alpha (k * g)) /\
  (k <> 0 ->
   is_root [k * x1; k * y1; k * x2; k * y2] (k * h) (k * w) (k * d) alpha (k * g) ->
   is_root [x1; y1; x2; y2] h w d alpha g).
Proof.
  assert (S : forall e1 e2 e3 e4,
      equations [x1; y1; x2; y2] h w d alpha g = Some [e1; e2; e3; e4] ->
      equations [k * x1; k * y1; k * x2; k * y2] (k * h) (k * w) (k * d) alpha (k * g) =
      Some [k * e1; k * e2; k ^ 2 * e3; k * e4]).
  { intros e1 e2 e3 e4. rewrite !equations_vec. intros [= <- <- <- <-].
    f_equal. f_equal; [ring|]. f_equal; [ring|]. f_equal; [ring|]. f_equal. ring. }
  split; [exact S|]. split.
  - intros Hr. unfold is_root in *. rewrite (S _ _ _ _ Hr).
    f_equal. f_equal; [ring|]. f_equal; [ring|]. f_equal; [ring|]. f_equal. ring.
  - intros Hk Hr. apply is_root_vec in Hr. destruct Hr as (F1 & F2 & F3 & F4).
    assert (Hk2 : k ^ 2 <> 0) by (apply pow_nonzero; exact Hk).
    apply is_root_vec.
    repeat match goal with |- _ /\ _ => split end.
    + apply (Rmult_eq_reg_l k); [|exact Hk]. rewrite F1. ring.
    + apply (Rmult_eq_reg_l k); [|exact Hk]. exact F2.
    + apply (Rmult_eq_reg_l (k ^ 2)); [|exact Hk2].
      replace (k ^ 2 * g ^ 2) with ((k * g) ^ 2) by ring.
      rewrite <- F3. ring.
    + apply (Rmult_eq_reg_l k); [|exact Hk]. rewrite F4. ring.
Qed.

Lemma tan_radians_plus_180 alpha :
  cos (np.radians alpha) <> 0 ->
  np.tan (np.radians (alpha + 180)) = np.tan (np.radians alpha).
Proof.
  intros Hc.
  replace (np.radians (alpha + 180)) with (np.radians alpha + PI)
    by (unfold np.radians; field).
  unfold np.tan, Rtrigo1.tan. rewrite neg_sin, neg_cos. field. exact Hc.
Qed.

(** X12: the cut angle counts modulo 180 degrees. Away from the angles at
    which the tangent is undefined (cos(radians(alpha)) <> 0), adding 180 to
    alpha changes no residual, so the roots for alpha and for alpha + 180 are
    the same. *)
Theorem equations_angle_period vars h w d alpha g :
  cos (np.radians alpha) <> 0 ->
  equations vars h w d (alpha + 180) g = equations vars h w d alpha g /\
  (is_root vars h w d (alpha + 180) g <-> is_root vars h w d alpha g).
Proof.
  intros Hc.
  assert (E : equations vars h w d (alpha + 180) g = equations vars h w d alpha g).
  { destruct vars as [|x1 [|y1 [|x2 [|y2 [|z t]]]]]; try reflexivity.
    rewrite !equations_vec, (tan_radians_plus_180 _ Hc). reflexivity. }
  split; [exact E|]. unfold is_root. now rewrite E.
Qed.

(** The statement of X12 run at alpha = 0 on the root (7, 10, 11, 10) of
    h = 10, w = 14, d = 3, g = 4: it is a root for alpha = 180 as well. *)
Lemma equations_angle_period_witness :
  cos (np.radians 0) <> 0 /\ is_root [7; 10; 11; 10] 10 14 3 (0 + 180) 4.
Proof.
  assert (Hc : cos (np.radians 0) <> 0).
  { rewrite radians_0, cos_0. lra. }
  split; [exact Hc|].
  exact (proj2 (proj2 (equations_angle_period [7; 10; 11; 10] 10 14 3 0 4 Hc)) root_0).
Defined.

(** ** Where the box pivot sits *)

Lemma radians_range alpha :
  - 90 < alpha < 90 -> - (PI / 2) < np.radians alpha < PI / 2.
Proof.
  intros [Hl Hu]. unfold np.radians. pose proof PI_RGT_0. split; nra.
Qed.

(** X13: at a root with d > 0 and a cut angle strictly between -90 and 90
    degrees, the box pivot is lower than the lid pivot when alpha > 0, at the
    same height when alpha = 0 and higher when alpha < 0. *)
Theorem box_pivot_height x1 y1 x2 y2 h w d alpha g :
  0 < d -> - 90 < alpha < 90 ->
  is_root [x1; y1; x2; y2] h w d alpha g ->
  (0 < alpha -> y1 < y2) /\ (alpha = 0 -> y1 = y2) /\ (alpha < 0 -> y2 < y1).
Proof.
  intros Hd Ha Hr. apply is_root_vec in Hr. destruct Hr as (_ & E2 & _ & E4).
  pose proof (radians_range _ Ha) as [Rl Ru].
  repeat match goal with |- _ /\ _ => split end.
  - intros Hp.
    assert (T : 0 < np.tan (np.radians alpha)).
    { unfold np.tan. apply tan_gt_0; [|exact Ru].
      unfold np.radians. pose proof PI_RGT_0. nra. }
    nra.
  - intros ->. rewrite tan_radians_0 in E4. lra.
  - intros Hn.
    assert (T : np.tan (np.radians alpha) < 0).
    { unfold np.tan. apply tan_lt_0; [exact Rl|].
      unfold np.radians. pose proof PI_RGT_0. nra. }
    nra.
Qed.

(** The statement of X13 run on the root (7, 7, 11, 10) of h = 10, w = 14,
    d = 3, alpha = 45, g = 5: the box pivot, at height 7, is below the lid
    pivot, at height 10. *)
Lemma box_pivot_height_witness :
  0 < 3 /\ - 90 < 45 < 90 /\ is_root [7; 7; 11; 10] 10 14 3 45 5 /\ 7 < 10.
Proof.
  assert (H1 : 0 < 3) by lra.
  assert (H2 : - 90 < 45 < 90) by lra.
  split; [exact H1|]. split; [exact H2|]. split; [exact root_45|].
  apply (proj1 (box_pivot_height 7 7 11 10 10 14 3 45 5 H1 H2 root_45)). lra.
Defined.

(** X14: the larger the cut angle, the lower the box pivot. For d > 0 and
    two angles -90 < alpha < beta < 90, a root for beta has its y1 strictly
    below the y1 of a root for alpha, the other parameters being the same
    (the gaps may differ). *)
Theorem box_pivot_decreasing x1 y1 x2 y2 x1' y1' x2' y2' h w d alpha beta g g' :
  0 < d -> - 90 < alpha -> alpha < beta -> beta < 90 ->
  is_root [x1; y1; x2; y2] h w d alpha g ->
  is_root [x1'; y1'; x2'; y2'] h w d beta g' ->
  y1' < y1.
Proof.
  intros Hd Hl Hlt Hu Hr Hr'.
  apply is_root_vec in Hr. destruct Hr as (_ & _ & _ & E4).
  apply is_root_vec in Hr'. destruct Hr' as (_ & _ & _ & E4').
  assert (T : np.tan (np.radians alpha) < np.tan (np.radians beta)).
  { unfold np.tan, np.radians. pose proof PI_RGT_0.
    apply tan_increasing; nra. }
  nra.
Qed.

(** The statement of X14 run on the roots for alpha = -45 and beta = 45 of
    h = 10, w = 14, d = 3, g = 5: heights 13 and 7. *)
Lemma box_pivot_decreasing_witness :
  0 < 3 /\ - 90 < Ropp 45 /\ Ropp 45 < 45 /\ 45 < 90 /\
  is_root [7; 13; 11; 10] 10 14 3 (Ropp 45) 5 /\
  is_root [7; 7; 11; 10] 10 14 3 45 5 /\
  7 < 13.
Proof.
  assert (H1 : 0 < 3) by lra.
  assert (H2 : - 90 < Ropp 45) by lra.
  assert (H3 : Ropp 45 < 45) by lra.
  assert (H4 : 45 < 90) by lra.
  split; [exact H1|]. split; [exact H2|]. split; [exact H3|]. split; [exact H4|].
  split; [exact root_m45|]. split; [exact root_45|].
  exact (box_pivot_decreasing 7 13 11 10 7 7 11 10 10 14 3 (Ropp 45) 45 5 5
           H1 H2 H3 H4 root_m45 root_45).
Defined.

(** ** What a successful solve returns *)

(** X15: when the root finder's answer is a root, the solve returns the lid
    pivot (w - d, h) exactly and a box pivot at height
    h - d*tan(radians(alpha)) whose horizontal distance to the lid pivot,
    squared, is g^2 - (d*tan(radians(alpha)))^2. *)
Theorem solved_pivots (fsolve : Solver) h w d alpha g p q :
  solve_pivot_points fsolve h w d alpha g = Some (p, q) ->
  is_root (fsolve equations (initial_guess h w d) (h, w, d, alpha, g)) h w d alpha g ->
  q = (w - d, h) /\
  snd p = h - d * np.tan (np.radians alpha) /\
  (fst q - fst p) ^ 2 = g ^ 2 - (d * np.tan (np.radians alpha)) ^ 2.
Proof.
  destruct p as [x1 y1], q as [x2 y2]. intros Hs Hr.
  apply solve_pivot_points_iterate in Hs. rewrite Hs in Hr.
  apply is_root_vec in Hr. destruct Hr as (E1 & E2 & E3 & E4). cbn [fst snd].
  repeat match goal with |- _ /\ _ => split end.
  - now rewrite E1, E2.
  - exact E4.
  - rewrite <- E3, E2, E4. ring.
Qed.

(** The statement of X15 run with the one-step solver at h = 10, w = 14,
    d = 3, alpha = 45, g = 5. *)
Lemma solved_pivots_witness :
  solve_pivot_points fsolve_linear_step 10 14 3 45 5 = Some ((7, 7), (11, 10)) /\
  is_root (fsolve_linear_step equations (initial_guess 10 14 3) (10, 14, 3, 45, 5))
    10 14 3 45 5 /\
  (11, 10) = (14 - 3, 10).
Proof.
  assert (Hr : is_root (fsolve_linear_step equations (initial_guess 10 14 3)
                          (10, 14, 3, 45, 5)) 10 14 3 45 5).
  { rewrite (proj1 (solve_pivot_points_iterate _ _ _ _ _ _ _ _ _ _)
               fsolve_linear_step_45).
    exact root_45. }
  split; [exact fsolve_linear_step_45|]. split; [exact Hr|].
  exact (proj1 (solved_pivots fsolve_linear_step 10 14 3 45 5 (7, 7) (11, 10)
                  fsolve_linear_step_45 Hr)).
Defined.
